(** * Agenda API: the contact store and its HTTP handlers

    A shallow embedding of [app/main.py].  The module-level list
    [contacts_db] is threaded explicitly through every handler; the two
    readings a handler takes from outside the program ([os.urandom], read
    by [uuid.uuid4], and the clock read by [datetime.now]) are the fields
    of an environment record handed to each request.

    Logging and tracing calls write to the logger and to the span only:
    they read the store (its length) and never write it, so the embedding
    leaves them out.  The log is added as a layer of its own further down
    ([log_requests] and the logging handlers), and shown to change neither
    the responses nor the store; so are the two system-metrics handlers,
    over floats kept abstract. *)

From Stdlib Require Import ZArith Lia Ascii String DecimalString.
From stdpp Require Import base strings list gmap.

Local Open Scope Z_scope.
Local Open Scope string_scope.

(** ** Data model *)

(** A [datetime] as [datetime.now] returns it: naive, local time. *)
Record datetime := Datetime {
  year : Z; month : Z; day : Z;
  hour : Z; minute : Z; second : Z; microsecond : Z
}.

(** [class ContactCreate(BaseModel)] *)
Record ContactCreate := mkContactCreate {
  cc_nome : string;
  cc_telefone : string;
  cc_email : option string;
  cc_endereco : option string
}.

(** [class Contact(BaseModel)] *)
Record Contact := mkContact {
  id : string;
  nome : string;
  telefone : string;
  email : option string;
  endereco : option string;
  created_at : datetime
}.

(** What a handler reads from outside the program during one request. *)
Record Env := mkEnv {
  urandom16 : Z;      (* [int.from_bytes(os.urandom(16), 'big')] *)
  now : datetime      (* [datetime.now()] *)
}.

(** ** Request bodies *)

(** A decoded JSON document, as [json.loads] hands it to the schema: an
    object is a Python [dict]. *)
#[local] Set Warnings "-register-all".
Inductive json :=
| JNull
| JBool (b : bool)
| JInt (n : Z)
| JFloat (mantissa exponent : Z)
| JStr (s : string)
| JArr (l : list json)
| JObj (m : gmap string json).

(** The entries of the 422 response's [detail] list: where, and why. *)
Inductive error_type :=
| missing              (* a required key is not in the object *)
| string_type          (* the value is not a string *)
| model_attributes_type. (* the body is not an object *)

Definition error_details := list (list string * error_type).

(** A field annotated [str], as the schema library checks a value decoded
    from JSON: the value must be a JSON string.  Any string passes, the
    empty one too: the annotation carries no length bound. *)
Definition validate_str (loc : string) (v : json) : string + error_details :=
  match v with
  | JStr s => inl s
  | _ => inr [(["body"; loc], string_type)]
  end.

(** A required field [name: str]. *)
Definition required_str (m : gmap string json) (name : string)
  : string + error_details :=
  match m !! name with
  | None => inr [(["body"; name], missing)]
  | Some v => validate_str name v
  end.

(** A field [name: Optional[str] = None]: absent and [null] both give
    [None]. *)
Definition optional_str (m : gmap string json) (name : string)
  : option string + error_details :=
  match m !! name with
  | None | Some JNull => inl None
  | Some v =>
      match validate_str name v with
      | inl s => inl (Some s)
      | inr e => inr e
      end
  end.

Definition errors_of {A} (r : A + error_details) : error_details :=
  match r with inl _ => [] | inr e => e end.

(** Validation of a body against [ContactCreate]: every field is checked
    and the errors of all of them are reported together, in field order.
    Keys the model does not declare are ignored. *)
Definition validate_ContactCreate (body : json) : ContactCreate + error_details :=
  match body with
  | JObj m =>
      let rn := required_str m "nome" in
      let rt := required_str m "telefone" in
      let re := optional_str m "email" in
      let ra := optional_str m "endereco" in
      match rn, rt, re, ra with
      | inl n, inl t, inl e, inl a => inl (mkContactCreate n t e a)
      | _, _, _, _ =>
          inr (errors_of rn ++ errors_of rt ++ errors_of re ++ errors_of ra)%list
      end
  | _ => inr [(["body"], model_attributes_type)]
  end.

(** ** Identifiers: [str(uuid.uuid4())] *)

Module UUID.

(** [UUID(bytes=..., version=4)]: the variant and version bits are forced
    on the 128-bit integer, the other 122 bits are kept. *)
Definition with_version4 (int : Z) : Z :=
  let int := Z.land int (Z.lnot (Z.shiftl 0xc000 48)) in
  let int := Z.lor int (Z.shiftl 0x8000 48) in
  let int := Z.land int (Z.lnot (Z.shiftl 0xf000 64)) in
  Z.lor int (Z.shiftl 4 76).

(** [uuid.uuid4()] *)
Definition uuid4 (env : Env) : Z := with_version4 (urandom16 env).

Definition hex_char (d : Z) : ascii :=
  match d with
  | 0 => "0" | 1 => "1" | 2 => "2" | 3 => "3"
  | 4 => "4" | 5 => "5" | 6 => "6" | 7 => "7"
  | 8 => "8" | 9 => "9" | 10 => "a" | 11 => "b"
  | 12 => "c" | 13 => "d" | 14 => "e" | _ => "f"
  end%char.

(** The [k] low hexadecimal digits of [n], most significant first: for
    [0 <= n < 16^k] this is ['%0kx' % n]. *)
Fixpoint hex_digits (k : nat) (n : Z) : string :=
  match k with
  | O => EmptyString
  | S k' =>
      String (hex_char (Z.land (Z.shiftr n (4 * Z.of_nat k')) 15))
             (hex_digits k' n)
  end.

(** [UUID.hex]: ['%032x' % self.int] *)
Definition hex (int : Z) : string := hex_digits 32 int.

(** [f'{x[:8]}-{x[8:12]}-{x[12:16]}-{x[16:20]}-{x[20:]}'] *)
Definition grouped (x : string) : string :=
  substring 0 8 x ++ "-" ++ substring 8 4 x ++ "-" ++
  substring 12 4 x ++ "-" ++ substring 16 4 x ++ "-" ++
  substring 20 (String.length x - 20) x.

(** [UUID.__str__] *)
Definition str (int : Z) : string :=
  let x := hex int in grouped x.

End UUID.

(** ** The handlers *)

(** [raise HTTPException(status_code=..., detail=...)] *)
Record HTTPException := mkHTTPException {
  status_code : Z;
  detail : string
}.

(** The body of [GET /]. *)
Record root_body := mkRootBody {
  message : string;
  status : string;
  endpoints : list (string * string)
}.

(** The body of [GET /health]. *)
Record health_body := mkHealthBody {
  h_status : string;
  service : string;
  total_contatos : nat
}.

Definition contacts_db := list Contact.

(** [async def root()] *)
Definition root (db : contacts_db) : root_body * contacts_db :=
  (mkRootBody "Bem-vindo à API de Agenda!" "active"
     [("adicionar_contato", "POST /contatos");
      ("listar_contatos", "GET /contatos");
      ("buscar_contato", "GET /contatos/{contact_id}");
      ("health_check", "GET /health");
      ("system_metrics", "GET /system-metrics");
      ("prometheus_metrics", "GET /metrics")],
   db).

(** [async def health_check()] *)
Definition health_check (db : contacts_db) : health_body * contacts_db :=
  (mkHealthBody "healthy" "agenda-api" (length db), db).

(** [async def adicionar_contato(contato: ContactCreate)] *)
Definition adicionar_contato (env : Env) (contato : ContactCreate)
    (db : contacts_db) : Contact * contacts_db :=
  let contact_id := UUID.str (UUID.uuid4 env) in
  let new_contact :=
    mkContact contact_id (cc_nome contato) (cc_telefone contato)
              (cc_email contato) (cc_endereco contato) (now env) in
  (new_contact, (db ++ [new_contact])%list).

(** [async def visualizar_contatos()] *)
Definition visualizar_contatos (db : contacts_db) : list Contact * contacts_db :=
  (db, db).

(** The loop of [buscar_contato]: [for contact in contacts_db], leaving at
    the first [contact.id == contact_id]. *)
Fixpoint database_search (db : list Contact) (contact_id : string)
  : option Contact :=
  match db with
  | [] => None
  | contact :: rest =>
      if String.eqb (id contact) contact_id then Some contact
      else database_search rest contact_id
  end.

(** [async def buscar_contato(contact_id: str)] *)
Definition buscar_contato (contact_id : string) (db : contacts_db)
  : (Contact + HTTPException) * contacts_db :=
  match database_search db contact_id with
  | Some contact => (inl contact, db)
  | None => (inr (mkHTTPException 404 "Contato não encontrado"), db)
  end.

(** ** The HTTP surface *)

Inductive request :=
| GET_root
| GET_health
| POST_contatos (body : json)
| GET_contatos
| GET_contato (contact_id : string).

Inductive response :=
| RootResponse (b : root_body)
| HealthResponse (b : health_body)
| ContactResponse (c : Contact)             (* 200, [response_model=Contact] *)
| ContactsResponse (l : list Contact)       (* 200, [response_model=List[Contact]] *)
| ValidationErrorResponse (e : error_details) (* 422 *)
| HTTPExceptionResponse (e : HTTPException).

(** The status code a response carries as the handler, the validation or
    the [HTTPException] produced it.  Rendering the returned value to JSON
    comes after the handler and is not part of this embedding: nothing
    below speaks of the bytes sent, and a returned contact whose text
    cannot be encoded is answered 500 by the framework, not 200. *)
Definition response_status (r : response) : Z :=
  match r with
  | ValidationErrorResponse _ => 422
  | HTTPExceptionResponse e => status_code e
  | _ => 200
  end.

(** One request against the store: the body of [POST /contatos] is
    validated first, and the handler is entered only with a valid
    [ContactCreate]. *)
Definition handle (env : Env) (req : request) (db : contacts_db)
  : response * contacts_db :=
  match req with
  | GET_root => let '(b, db') := root db in (RootResponse b, db')
  | GET_health => let '(b, db') := health_check db in (HealthResponse b, db')
  | POST_contatos body =>
      match validate_ContactCreate body with
      | inr e => (ValidationErrorResponse e, db)
      | inl contato =>
          let '(c, db') := adicionar_contato env contato db in
          (ContactResponse c, db')
      end
  | GET_contatos =>
      let '(l, db') := visualizar_contatos db in (ContactsResponse l, db')
  | GET_contato contact_id =>
      match buscar_contato contact_id db with
      | (inl c, db') => (ContactResponse c, db')
      | (inr e, db') => (HTTPExceptionResponse e, db')
      end
  end.

(** A process lifetime: the requests served so far, oldest first, each with
    the environment it ran in.  The store is empty at start-up. *)
Definition trace := list (Env * request).

Fixpoint run (tr : trace) (db : contacts_db) : list response * contacts_db :=
  match tr with
  | [] => ([], db)
  | (env, req) :: tr' =>
      let '(r, db') := handle env req db in
      let '(rs, db'') := run tr' db' in
      (r :: rs, db'')
  end.

(** The contacts a list of responses reports as created. *)
Fixpoint created (tr : trace) (rs : list response) : list Contact :=
  match tr, rs with
  | (_, POST_contatos _) :: tr', ContactResponse c :: rs' => c :: created tr' rs'
  | _ :: tr', _ :: rs' => created tr' rs'
  | _, _ => []
  end.

(** ** Traces: what was created, what was drawn *)

(** The number of requests of a trace that create a contact: the [POST]s
    whose body passes validation. *)
Definition creates (req : request) : bool :=
  match req with
  | POST_contatos body =>
      match validate_ContactCreate body with inl _ => true | inr _ => false end
  | _ => false
  end.

Fixpoint creations (tr : trace) : nat :=
  match tr with
  | [] => O
  | (_, req) :: tr' => (if creates req then 1 else 0) + creations tr'
  end.

(** [os.urandom(16)] is sixteen bytes. *)
Definition Env_wf (env : Env) : Prop := 0 <= urandom16 env < 2 ^ 128.

(** The UUID values drawn during a trace, oldest first: one for each
    request that reaches [uuid.uuid4()]. *)
Fixpoint draws (tr : trace) : list Z :=
  match tr with
  | [] => []
  | (env, req) :: tr' =>
      if creates req then UUID.uuid4 env :: draws tr' else draws tr'
  end.

(** ** Reading a request body *)

(** The value a body gives a key, if it is an object and has the key. *)
Definition field (body : json) (key : string) : option json :=
  match body with
  | JObj m => m !! key
  | _ => None
  end.

(** The key is absent, or its value is not a string. *)
Definition absent_or_mistyped (o : option json) : Prop :=
  match o with
  | Some (JStr _) => False
  | _ => True
  end.

(** What an optional field of the body must look like for validation to
    give [v]: a string for [Some], absent or [null] for [None]. *)
Definition optional_field_is (o : option json) (v : option string) : Prop :=
  match v with
  | Some s => o = Some (JStr s)
  | None => o = None \/ o = Some JNull
  end.

(** ** The shape of an identifier *)

(** One of [0-9a-f]. *)
Definition is_hex_digit (c : ascii) : bool :=
  let n := nat_of_ascii c in
  ((48 <=? n)%nat && (n <=? 57)%nat) || ((97 <=? n)%nat && (n <=? 102)%nat).

Fixpoint all_hex (s : string) : bool :=
  match s with
  | EmptyString => true
  | String c s' => is_hex_digit c && all_hex s'
  end.

(** The text form of a version-4 UUID of the RFC 4122 variant:
    [[0-9a-f]{8}-[0-9a-f]{4}-4[0-9a-f]{3}-[89ab][0-9a-f]{3}-[0-9a-f]{12}]. *)
Definition uuid4_shaped (s : string) : bool :=
  (String.length s =? 36)%nat &&
  all_hex (substring 0 8 s) && String.eqb (substring 8 1 s) "-" &&
  all_hex (substring 9 4 s) && String.eqb (substring 13 1 s) "-" &&
  String.eqb (substring 14 1 s) "4" && all_hex (substring 15 3 s) &&
  String.eqb (substring 18 1 s) "-" &&
  existsb (String.eqb (substring 19 1 s)) ["8"; "9"; "a"; "b"] &&
  all_hex (substring 20 3 s) && String.eqb (substring 23 1 s) "-" &&
  all_hex (substring 24 12 s).

(** ** Sample data *)

Definition t0 : datetime := Datetime 2024 5 17 9 30 0 0.
Definition t1 : datetime := Datetime 2024 5 17 9 31 12 250000.

Definition env0 : Env := mkEnv 0x0123456789abcdef0123456789abcdef t0.
Definition env1 : Env := mkEnv 0xfedcba9876543210fedcba9876543210 t1.

Definition ana : Contact :=
  mkContact "6f1b2c3d-0000-4000-8000-000000000001" "Ana" "123" None None t0.
Definition bia : Contact :=
  mkContact "6f1b2c3d-0000-4000-8000-000000000002" "Bia" "456"
            (Some "bia@example.org") None t1.
(** A record carrying the identifier [bia] already has. *)
Definition bia_again : Contact :=
  mkContact "6f1b2c3d-0000-4000-8000-000000000002" "Bianca" "789" None None t1.

(** Sample request bodies. *)

(** [{"nome": "Ana", "telefone": "123"}] *)
Definition body_ana : json :=
  JObj (list_to_map [("nome", JStr "Ana"); ("telefone", JStr "123")]).

(** [{"nome": "Bob", "telefone": "456", "id": "mine"}] *)
Definition body_bob : json :=
  JObj (list_to_map [("nome", JStr "Bob"); ("telefone", JStr "456");
                     ("id", JStr "mine")]).

(** Both required fields present, both the empty string. *)
Definition body_blank : json :=
  JObj (list_to_map [("nome", JStr EmptyString);
                     ("telefone", JStr EmptyString)]).

(** [{"nome": "Ana"}] *)
Definition body_no_phone : json :=
  JObj (list_to_map [("nome", JStr "Ana")]).

(** [{"nome": 42, "telefone": "123"}] *)
Definition body_numeric_name : json :=
  JObj (list_to_map [("nome", JInt 42); ("telefone", JStr "123")]).

(** ** The request log *)

(** What the module writes to its logger [agenda-api]: the level of each
    record and the dictionary handed to [json.dumps] as its message.  The
    spans opened beside the log calls are not modelled. *)
Inductive levelname := INFO | WARNING.

Section Observability.

(** The numbers [time.time()] returns, and [round(t1 - t0, 4)] on them. *)
Context {float : Type}.
Variable elapsed : float -> float -> float.

Inductive log_event :=
| request_started (method url client_ip : string)
| request_completed (method url : string) (status_code : Z) (process_time : float)
| creating_contact (contact_name : string) (has_email has_address : bool)
| contact_created (contact_id contact_name : string) (total_contacts : nat)
| listing_contacts (total_contacts : nat)
| searching_contact (contact_id : string)
| contact_found (contact_id contact_name : string)
| contact_not_found (contact_id : string).

Definition log := list (levelname * log_event).

(** [o is not None] *)
Definition is_not_None {A} (o : option A) : bool :=
  match o with Some _ => true | None => false end.

(** [adicionar_contato], with the records it logs. *)
Definition adicionar_contato_logged (env : Env) (contato : ContactCreate)
    (db : contacts_db) : Contact * contacts_db * log :=
  let l1 := [(INFO, creating_contact (cc_nome contato)
                      (is_not_None (cc_email contato))
                      (is_not_None (cc_endereco contato)))] in
  let contact_id := UUID.str (UUID.uuid4 env) in
  let new_contact :=
    mkContact contact_id (cc_nome contato) (cc_telefone contato)
              (cc_email contato) (cc_endereco contato) (now env) in
  let db' := (db ++ [new_contact])%list in
  let l2 := [(INFO, contact_created (id new_contact) (nome new_contact)
                      (length db'))] in
  (new_contact, db', (l1 ++ l2)%list).

(** [visualizar_contatos], with the record it logs. *)
Definition visualizar_contatos_logged (db : contacts_db)
  : list Contact * contacts_db * log :=
  (db, db, [(INFO, listing_contacts (length db))]).

(** The loop of [buscar_contato], with the record logged on a match. *)
Fixpoint database_search_logged (db : list Contact) (contact_id : string)
  : option Contact * log :=
  match db with
  | [] => (None, [])
  | contact :: rest =>
      if String.eqb (id contact) contact_id
      then (Some contact, [(INFO, contact_found contact_id (nome contact))])
      else database_search_logged rest contact_id
  end.

(** [buscar_contato], with the records it logs. *)
Definition buscar_contato_logged (contact_id : string) (db : contacts_db)
  : (Contact + HTTPException) * contacts_db * log :=
  let l1 := [(INFO, searching_contact contact_id)] in
  match database_search_logged db contact_id with
  | (Some contact, l2) => (inl contact, db, (l1 ++ l2)%list)
  | (None, l2) =>
      (inr (mkHTTPException 404 "Contato não encontrado"), db,
       (l1 ++ l2 ++ [(WARNING, contact_not_found contact_id)])%list)
  end.

(** What [call_next] does with a routed request: validation, then the
    handler.  [root] and [health_check] log nothing. *)
Definition call_next (env : Env) (req : request) (db : contacts_db)
  : response * contacts_db * log :=
  match req with
  | GET_root => let '(b, db') := root db in (RootResponse b, db', [])
  | GET_health => let '(b, db') := health_check db in (HealthResponse b, db', [])
  | POST_contatos body =>
      match validate_ContactCreate body with
      | inr e => (ValidationErrorResponse e, db, [])
      | inl contato =>
          let '(c, db', l) := adicionar_contato_logged env contato db in
          (ContactResponse c, db', l)
      end
  | GET_contatos =>
      let '(l, db', lg) := visualizar_contatos_logged db in
      (ContactsResponse l, db', lg)
  | GET_contato contact_id =>
      match buscar_contato_logged contact_id db with
      | (inl c, db', lg) => (ContactResponse c, db', lg)
      | (inr e, db', lg) => (HTTPExceptionResponse e, db', lg)
      end
  end.

(** What the middleware sees of a request, and the request as routed. *)
Record http_request := mkHttpRequest {
  method : string;
  url : string;              (* [str(request.url)] *)
  client : option string;    (* [request.client.host], when there is a client *)
  route : request
}.

(** The two readings of [time.time()] the middleware takes. *)
Record Times := mkTimes {
  start_time : float;
  end_time : float
}.

(** [async def log_requests(request, call_next)], around a request the
    router hands to one of the five handlers; [log_requests_any] below is
    the middleware around every request. *)
Definition log_requests (env : Env) (times : Times) (req : http_request)
    (db : contacts_db) : response * contacts_db * log :=
  let started :=
    (INFO, request_started (method req) (url req)
             (match client req with Some host => host | None => "unknown" end)) in
  let '(response, db', lg) := call_next env (route req) db in
  let process_time := elapsed (end_time times) (start_time times) in
  let completed :=
    (INFO, request_completed (method req) (url req)
             (response_status response) process_time) in
  (response, db', (started :: lg ++ [completed])%list).

(** A process lifetime, seen from the middleware. *)
Definition logged_trace := list (Env * Times * http_request).

Fixpoint run_logged (tr : logged_trace) (db : contacts_db)
  : list response * contacts_db * log :=
  match tr with
  | [] => ([], db, [])
  | (env, times, req) :: tr' =>
      let '(r, db', lg) := log_requests env times req db in
      let '(rs, db'', lg') := run_logged tr' db' in
      (r :: rs, db'', (lg ++ lg')%list)
  end.

(** The trace with what the middleware adds taken away. *)
Definition routed (tr : logged_trace) : trace :=
  map (fun '(env, _, req) => (env, route req)) tr.

(** The [total_contacts] of the [contact_created] records of a log. *)
Fixpoint created_totals (lg : log) : list nat :=
  match lg with
  | [] => []
  | (_, contact_created _ _ n) :: lg' => n :: created_totals lg'
  | _ :: lg' => created_totals lg'
  end.

Definition is_warning (r : levelname * log_event) : bool :=
  match r with (WARNING, _) => true | _ => false end.

(** Where the application sends a request the middleware passes on: to one
    of the five handlers, or elsewhere.  Elsewhere is the router answering
    by itself (404 for a path no route matches, such as a lookup path with
    a further [/] in it, 405, the 307 redirect of a trailing slash) or
    another route (the metrics and documentation routes); none of these
    calls the logger or touches the store.  An exception may also leave
    [call_next], as the division by zero of the metrics handlers does. *)
Inductive dispatch :=
| to_handler (req : request)
| answered_elsewhere (status : Z)
| raised_elsewhere.

(** A request as it reaches the middleware. *)
Record incoming := mkIncoming {
  in_method : string;
  in_url : string;               (* [str(request.url)] *)
  in_client : option string;     (* [request.client.host], when there is a client *)
  in_dispatch : dispatch
}.

(** What [call_next] returns. *)
Inductive answer :=
| handler_answer (r : response)
| other_answer (status : Z).

(** [response.status_code] *)
Definition answer_status (a : answer) : Z :=
  match a with
  | handler_answer r => response_status r
  | other_answer status => status
  end.

(** [await call_next(request)] for any request; [None] when it raises. *)
Definition call_next_any (env : Env) (d : dispatch) (db : contacts_db)
  : option answer * contacts_db * log :=
  match d with
  | to_handler req =>
      let '(r, db', lg) := call_next env req db in
      (Some (handler_answer r), db', lg)
  | answered_elsewhere status => (Some (other_answer status), db, [])
  | raised_elsewhere => (None, db, [])
  end.

(** [async def log_requests(request, call_next)] for any request: when
    [call_next] raises, the exception leaves the middleware before the
    second record is written. *)
Definition log_requests_any (env : Env) (times : Times) (req : incoming)
    (db : contacts_db) : option answer * contacts_db * log :=
  let started :=
    (INFO, request_started (in_method req) (in_url req)
             (match in_client req with
              | Some host => host
              | None => "unknown"
              end)) in
  match call_next_any env (in_dispatch req) db with
  | (Some response, db', lg) =>
      let process_time := elapsed (end_time times) (start_time times) in
      let completed :=
        (INFO, request_completed (in_method req) (in_url req)
                 (answer_status response) process_time) in
      (Some response, db', (started :: lg ++ [completed])%list)
  | (None, db', lg) => (None, db', (started :: lg)%list)
  end.

End Observability.

Arguments log_event : clear implicits.
Arguments log : clear implicits.
Arguments http_request : clear implicits.
Arguments Times : clear implicits.
Arguments logged_trace : clear implicits.

(** ** The system-metrics endpoints *)

(** [str(n)] for an [int]. *)
Definition str_int (n : Z) : string := NilZero.string_of_int (Z.to_int n).

(** The [k] low decimal digits of [n], most significant first: for
    [0 <= n < 10^k] this is ['%0kd' % n]. *)
Fixpoint dec_digits (k : nat) (n : Z) : string :=
  match k with
  | O => EmptyString
  | S k' =>
      String (ascii_of_nat (48 + Z.to_nat ((n / 10 ^ Z.of_nat k') mod 10)))
             (dec_digits k' n)
  end.

(** [datetime.isoformat()] of a naive [datetime]: the fraction is printed
    only when the microseconds are not zero. *)
Definition isoformat (t : datetime) : string :=
  dec_digits 4 (year t) ++ "-" ++ dec_digits 2 (month t) ++ "-" ++
  dec_digits 2 (day t) ++ "T" ++ dec_digits 2 (hour t) ++ ":" ++
  dec_digits 2 (minute t) ++ ":" ++ dec_digits 2 (second t) ++
  (if Z.eqb (microsecond t) 0 then EmptyString
   else "." ++ dec_digits 6 (microsecond t)).

Definition newline : ascii := "010"%char.

(** [s.split(sep)] for a separator of one character. *)
Fixpoint split_on (sep : ascii) (s : string) : list string :=
  match s with
  | EmptyString => [EmptyString]
  | String c s' =>
      if Ascii.eqb c sep then EmptyString :: split_on sep s'
      else match split_on sep s' with
           | [] => [String c EmptyString]
           | l :: ls => String c l :: ls
           end
  end.

(** The character does not occur in the string. *)
Fixpoint free_of (c : ascii) (s : string) : bool :=
  match s with
  | EmptyString => true
  | String c' s' => negb (Ascii.eqb c' c) && free_of c s'
  end.

(** A Python exception that leaves a handler. *)
Inductive exception := ZeroDivisionError.

Section Metrics.

(** Python floats, with the operations the two handlers use on them. *)
Context {float : Type}.
Variable truediv : Z -> Z -> float.   (* [a / b] on [int]s, [b] not zero *)
Variable fmul : float -> Z -> float.  (* [x * n] *)
Variable round2 : float -> float.     (* [round(x, 2)] *)
Variable repr : float -> string.      (* the text of [x] in an f-string *)

(** [psutil.virtual_memory()], the fields read. *)
Record svmem := mkSvmem {
  mem_total : Z;
  mem_available : Z;
  mem_percent : float;
  mem_used : Z
}.

(** [psutil.disk_usage('/')], the fields read. *)
Record sdiskusage := mkSdiskusage {
  disk_total : Z;
  disk_used : Z;
  disk_free : Z
}.

(** What one metrics request reads from the host. *)
Record Readings := mkReadings {
  cpu_percent : float;          (* [psutil.cpu_percent(interval=1)] *)
  cpu_count : option Z;         (* [psutil.cpu_count()], [None] if unknown *)
  virtual_memory : svmem;
  disk_usage : sdiskusage;
  metrics_now : datetime        (* [datetime.now()] *)
}.

Record cpu_body := mkCpuBody {
  cpu_usage_percent : float;
  count : option Z
}.

Record memory_body := mkMemoryBody {
  memory_total_gb : float;
  memory_available_gb : float;
  memory_used_gb : float;
  memory_usage_percent : float
}.

Record disk_body := mkDiskBody {
  disk_total_gb : float;
  disk_used_gb : float;
  disk_free_gb : float;
  disk_usage_percent : float
}.

(** The body of [GET /system-metrics]. *)
Record metrics_body := mkMetricsBody {
  timestamp : string;
  cpu : cpu_body;
  memory : memory_body;
  disk : disk_body;
  contacts_count : nat
}.

(** [round(n / (1024**3), 2)] *)
Definition to_gb (n : Z) : float := round2 (truediv n (1024 ^ 3)).

(** [round((disk.used / disk.total) * 100, 2)]: the division raises when
    the total is zero. *)
Definition usage_percent (d : sdiskusage) : float + exception :=
  if Z.eqb (disk_total d) 0 then inr ZeroDivisionError
  else inl (round2 (fmul (truediv (disk_used d) (disk_total d)) 100)).

(** [async def system_metrics()] *)
Definition system_metrics (rd : Readings) (db : contacts_db)
  : (metrics_body + exception) * contacts_db :=
  let memory := virtual_memory rd in
  let disk := disk_usage rd in
  match usage_percent disk with
  | inr e => (inr e, db)
  | inl pct =>
      (inl (mkMetricsBody
              (isoformat (metrics_now rd))
              (mkCpuBody (cpu_percent rd) (cpu_count rd))
              (mkMemoryBody (to_gb (mem_total memory))
                            (to_gb (mem_available memory))
                            (to_gb (mem_used memory))
                            (mem_percent memory))
              (mkDiskBody (to_gb (disk_total disk)) (to_gb (disk_used disk))
                          (to_gb (disk_free disk)) pct)
              (length db)),
       db)
  end.

(** [psutil.cpu_count()] in an f-string. *)
Definition str_cpu_count (c : option Z) : string :=
  match c with Some n => str_int n | None => "None" end.

(** The list [metrics] of [system_metrics_prometheus], once all eleven
    lines are appended; the tenth raises when the disk total is zero. *)
Definition prometheus_metrics (rd : Readings) (db : contacts_db)
  : list string + exception :=
  let memory := virtual_memory rd in
  let disk := disk_usage rd in
  match usage_percent disk with
  | inr e => inr e
  | inl pct =>
      inl ["system_cpu_usage_percent " ++ repr (cpu_percent rd);
           "system_cpu_count " ++ str_cpu_count (cpu_count rd);
           "system_memory_total_bytes " ++ str_int (mem_total memory);
           "system_memory_available_bytes " ++ str_int (mem_available memory);
           "system_memory_used_bytes " ++ str_int (mem_used memory);
           "system_memory_usage_percent " ++ repr (mem_percent memory);
           "system_disk_total_bytes " ++ str_int (disk_total disk);
           "system_disk_used_bytes " ++ str_int (disk_used disk);
           "system_disk_free_bytes " ++ str_int (disk_free disk);
           "system_disk_usage_percent " ++ repr pct;
           "agenda_contacts_total " ++ str_int (Z.of_nat (length db))]
  end.

(** [async def system_metrics_prometheus()]: the content of the
    [text/plain] response. *)
Definition system_metrics_prometheus (rd : Readings) (db : contacts_db)
  : (string + exception) * contacts_db :=
  match prometheus_metrics rd db with
  | inr e => (inr e, db)
  | inl metrics =>
      (inl (String.concat (String newline EmptyString) metrics
            ++ String newline EmptyString), db)
  end.

End Metrics.


(** A stand-in for floats where an example needs concrete numbers:
    decimal fixed point, a number being its count of thousandths. *)
Module Milli.

Definition truediv (a b : Z) : Z := (1000 * a) / b.

Definition fmul (x : Z) (n : Z) : Z := x * n.

(** To the nearest hundredth, a tie going to the even one. *)
Definition round2 (x : Z) : Z :=
  let q := x / 10 in
  let r := x mod 10 in
  if Z.ltb r 5 then 10 * q
  else if Z.ltb 5 r then 10 * (q + 1)
  else if Z.even q then 10 * q else 10 * (q + 1).

Definition repr (x : Z) : string :=
  str_int (x / 1000) ++ "." ++ dec_digits 3 (x mod 1000).

End Milli.

Arguments svmem : clear implicits.
Arguments Readings : clear implicits.
Arguments cpu_body : clear implicits.
Arguments memory_body : clear implicits.
Arguments disk_body : clear implicits.
Arguments metrics_body : clear implicits.

(** * Properties *)

(** ** The model on concrete identifiers *)

Example uuid_zero :
  UUID.str (UUID.uuid4 (mkEnv 0 (Datetime 2024 1 1 0 0 0 0)))
  = "00000000-0000-4000-8000-000000000000".
Proof. reflexivity. Qed.

Example uuid_ones :
  UUID.str (UUID.uuid4 (mkEnv (2^128 - 1) (Datetime 2024 1 1 0 0 0 0)))
  = "ffffffff-ffff-4fff-bfff-ffffffffffff".
Proof. reflexivity. Qed.

Example isoformat_seconds : isoformat t0 = "2024-05-17T09:30:00".
Proof. reflexivity. Qed.

Example isoformat_microseconds : isoformat t1 = "2024-05-17T09:31:12.250000".
Proof. reflexivity. Qed.

Example str_int_samples :
  str_int 0 = "0" /\ str_int 8589934592 = "8589934592" /\ str_int (-7) = "-7".
Proof. repeat split. Qed.

Example split_on_lines :
  split_on newline (String "a" (String newline (String "b" (String newline EmptyString))))
  = ["a"; "b"; EmptyString].
Proof. reflexivity. Qed.

(** ** The lookup loop *)

Section Search.

Implicit Types (db : list Contact) (c : Contact) (i : string).

Lemma database_search_None db i :
  database_search db i = None <-> Forall (fun c => id c <> i) db.
Proof.
  induction db as [|c db IH]; simpl.
  - split; [constructor | reflexivity].
  - destruct (String.eqb_spec (id c) i) as [E|E].
    + split; [discriminate | intros H; inversion H; contradiction].
    + rewrite IH. split; [now constructor | intros H; now inversion H].
Qed.

Lemma database_search_first pre c post i :
  Forall (fun x => id x <> i) pre -> id c = i ->
  database_search (pre ++ c :: post) i = Some c.
Proof.
  intros Hpre Hc. induction Hpre as [|x pre Hx _ IH]; simpl.
  - apply String.eqb_eq in Hc. now rewrite Hc.
  - apply String.eqb_neq in Hx. now rewrite Hx.
Qed.

Lemma database_search_Some db i c :
  database_search db i = Some c ->
  exists pre post,
    db = (pre ++ c :: post)%list /\ Forall (fun x => id x <> i) pre /\ id c = i.
Proof.
  induction db as [|x db IH]; simpl; [discriminate|].
  destruct (String.eqb_spec (id x) i) as [E|E].
  - intros [= ->]. exists [], db. repeat split; [constructor | exact E].
  - intros H. destruct (IH H) as (pre & post & -> & Hpre & Hc).
    exists (x :: pre), post. repeat split; [now constructor | exact Hc].
Qed.

End Search.

(** ** What a request does to the store *)

Lemma handle_POST_valid env body contato db :
  validate_ContactCreate body = inl contato ->
  handle env (POST_contatos body) db =
    (ContactResponse (adicionar_contato env contato db).1,
     (db ++ [(adicionar_contato env contato db).1])%list).
Proof. intros H. simpl. now rewrite H. Qed.

Lemma handle_POST_inv env body db r db' :
  handle env (POST_contatos body) db = (r, db') ->
  (exists e, validate_ContactCreate body = inr e /\
             r = ValidationErrorResponse e /\ db' = db) \/
  (exists contato, validate_ContactCreate body = inl contato /\
             r = ContactResponse (adicionar_contato env contato db).1 /\
             db' = (db ++ [(adicionar_contato env contato db).1])%list).
Proof.
  simpl. destruct (validate_ContactCreate body) as [contato|e]; intros [= <- <-].
  - right. now exists contato.
  - left. now exists e.
Qed.

Lemma handle_GET_frame env req db :
  (forall body, req <> POST_contatos body) -> (handle env req db).2 = db.
Proof.
  intros Hreq. destruct req as [| |body| |i]; simpl; try reflexivity.
  - now destruct (Hreq body).
  - unfold buscar_contato. now destruct (database_search db i).
Qed.

Lemma run_app tr1 tr2 db :
  run (tr1 ++ tr2)%list db =
    (((run tr1 db).1 ++ (run tr2 (run tr1 db).2).1)%list,
     (run tr2 (run tr1 db).2).2).
Proof.
  revert db. induction tr1 as [|[env req] tr1 IH]; intros db; simpl.
  - now destruct (run tr2 db).
  - destruct (handle env req db) as [r db1]. rewrite IH.
    destruct (run tr1 db1) as [rs1 db2]. simpl.
    now destruct (run tr2 db2).
Qed.

Lemma create_store env body db c db' :
  handle env (POST_contatos body) db = (ContactResponse c, db') ->
  db' = (db ++ [c])%list.
Proof.
  intros H.
  now apply handle_POST_inv in H as [(e & _ & [=] & _)|(ct & _ & [= ->] & ->)].
Qed.

(** The store after a trace is the store before it followed by the
    contacts the trace's [POST]s returned, oldest first. *)
Lemma run_store tr db :
  (run tr db).2 = (db ++ created tr (run tr db).1)%list.
Proof.
  revert db. induction tr as [|[env req] tr IH]; intros db; simpl.
  - now rewrite app_nil_r.
  - destruct (handle env req db) as [r db1] eqn:Hh.
    specialize (IH db1). destruct (run tr db1) as [rs db2]. simpl in *.
    rewrite IH. destruct req as [| |body| |i].
    + simpl in Hh. now injection Hh as <- <-.
    + simpl in Hh. now injection Hh as <- <-.
    + apply handle_POST_inv in Hh as [(e & _ & -> & ->)|(ct & _ & -> & ->)].
      * reflexivity.
      * now rewrite <- app_assoc.
    + simpl in Hh. now injection Hh as <- <-.
    + pose proof (handle_GET_frame env (GET_contato i) db) as Hf.
      rewrite Hh in Hf. simpl in Hf. rewrite Hf; [|discriminate].
      simpl in Hh. unfold buscar_contato in Hh.
      destruct (database_search db i); now injection Hh as <- _.
Qed.

Lemma created_length tr db :
  length (created tr (run tr db).1) = creations tr.
Proof.
  revert db. induction tr as [|[env req] tr IH]; intros db; simpl; [reflexivity|].
  destruct (handle env req db) as [r db1] eqn:Hh.
  specialize (IH db1). destruct (run tr db1) as [rs db2]. simpl in *.
  destruct req as [| |body| |i]; simpl in *.
  - now injection Hh as <- <-.
  - now injection Hh as <- <-.
  - destruct (validate_ContactCreate body); injection Hh as <- <-; simpl; lia.
  - now injection Hh as <- <-.
  - unfold buscar_contato in Hh.
    destruct (database_search db i); now injection Hh as <- _.
Qed.

(** ** Identifiers *)

Module UUIDFacts.
Import UUID.

Lemma hex_digits_length k n : String.length (hex_digits k n) = k.
Proof. induction k as [|k IH]; simpl; [reflexivity | now rewrite IH]. Qed.

Lemma nibble_range x : 0 <= Z.land x 15 < 16.
Proof.
  change 15 with (Z.ones 4). rewrite Z.land_ones by lia.
  apply Z.mod_pos_bound. reflexivity.
Qed.

Lemma hex_char_inj a b :
  0 <= a < 16 -> 0 <= b < 16 -> hex_char a = hex_char b -> a = b.
Proof.
  intros Ha Hb.
  assert (Ea : a = 0 \/ a = 1 \/ a = 2 \/ a = 3 \/ a = 4 \/ a = 5 \/ a = 6 \/
               a = 7 \/ a = 8 \/ a = 9 \/ a = 10 \/ a = 11 \/ a = 12 \/
               a = 13 \/ a = 14 \/ a = 15) by lia.
  assert (Eb : b = 0 \/ b = 1 \/ b = 2 \/ b = 3 \/ b = 4 \/ b = 5 \/ b = 6 \/
               b = 7 \/ b = 8 \/ b = 9 \/ b = 10 \/ b = 11 \/ b = 12 \/
               b = 13 \/ b = 14 \/ b = 15) by lia.
  clear Ha Hb.
  repeat (destruct Ea as [->|Ea]);
    try subst a;
    repeat (destruct Eb as [->|Eb]);
    try subst b; simpl; intros H; first [reflexivity | discriminate H].
Qed.

(** Equal digit strings come from numbers equal in their [4k] low bits. *)
Lemma hex_digits_inj k a b :
  hex_digits k a = hex_digits k b ->
  a mod 16 ^ Z.of_nat k = b mod 16 ^ Z.of_nat k.
Proof.
  induction k as [|k IH]; simpl hex_digits.
  - intros _. now rewrite !Z.mod_1_r.
  - intros [= Hd Ht]. specialize (IH Ht).
    apply hex_char_inj in Hd; try apply nibble_range.
    change 15 with (Z.ones 4) in Hd.
    rewrite !Z.land_ones, !Z.shiftr_div_pow2 in Hd by lia.
    assert (E : 2 ^ (4 * Z.of_nat k) = 16 ^ Z.of_nat k).
    { change 16 with (2 ^ 4). now rewrite <- Z.pow_mul_r by lia. }
    rewrite E in Hd. change (2 ^ 4) with 16 in Hd.
    rewrite Nat2Z.inj_succ, Z.pow_succ_r by lia.
    rewrite (Z.mul_comm 16).
    assert (16 ^ Z.of_nat k <> 0) by (apply Z.pow_nonzero; lia).
    rewrite !Z.rem_mul_r by lia. now rewrite IH, Hd.
Qed.

Lemma str_grouped n : str n = grouped (hex n).
Proof. reflexivity. Qed.

Ltac explode x Hx :=
  repeat (destruct x as [|? x];
          [discriminate Hx | simpl in Hx; apply Nat.succ_inj in Hx]);
  destruct x; [clear Hx | discriminate Hx].

Lemma grouped_length x :
  String.length x = 32%nat -> String.length (grouped x) = 36%nat.
Proof. intros Hx. explode x Hx. reflexivity. Qed.

Lemma grouped_inj x y :
  String.length x = 32%nat -> String.length y = 32%nat ->
  grouped x = grouped y -> x = y.
Proof.
  intros Hx Hy. explode x Hx. explode y Hy.
  unfold grouped. simpl. intros H. injection H as H. now subst.
Qed.

Lemma str_length n : String.length (str n) = 36%nat.
Proof. rewrite str_grouped. apply grouped_length, hex_digits_length. Qed.

Lemma str_nonempty n : str n <> EmptyString.
Proof.
  intros H. pose proof (str_length n) as L. rewrite H in L. discriminate L.
Qed.

(** Forcing the version and variant bits keeps a 128-bit value in range. *)
Lemma with_version4_range r :
  0 <= r < 2 ^ 128 -> 0 <= with_version4 r < 2 ^ 128.
Proof.
  intros Hr.
  assert (E : with_version4 r = with_version4 r mod 2 ^ 128).
  { rewrite <- Z.land_ones by lia. apply Z.bits_inj'. intros n Hn.
    rewrite Z.land_spec, Z.testbit_ones_nonneg by lia.
    destruct (Z.ltb_spec n 128) as [Hlt|Hge]; [now rewrite andb_true_r|].
    rewrite andb_false_r. unfold with_version4.
    rewrite !Z.lor_spec, !Z.land_spec, !Z.lor_spec, !Z.land_spec.
    assert (Hbit : Z.testbit r n = false).
    { destruct (Z.eq_dec r 0) as [->|Hr0]; [apply Z.bits_0|].
      apply Z.bits_above_log2; [lia|].
      apply Z.lt_le_trans with 128; [|exact Hge].
      apply Z.log2_lt_pow2; lia. }
    rewrite Hbit.
    assert (Hvariant : Z.testbit (Z.shiftl 0x8000 48) n = false).
    { apply Z.bits_above_log2; [discriminate|].
      change (Z.log2 (Z.shiftl 0x8000 48)) with 63. lia. }
    assert (Hversion : Z.testbit (Z.shiftl 4 76) n = false).
    { apply Z.bits_above_log2; [discriminate|].
      change (Z.log2 (Z.shiftl 4 76)) with 78. lia. }
    now rewrite Hvariant, Hversion. }
  rewrite E. apply Z.mod_pos_bound. reflexivity.
Qed.

(** Two 128-bit UUID values print alike only when they are equal. *)
Lemma str_inj a b :
  0 <= a < 2 ^ 128 -> 0 <= b < 2 ^ 128 -> str a = str b -> a = b.
Proof.
  intros Ha Hb H. rewrite !str_grouped in H.
  apply grouped_inj in H; try apply hex_digits_length.
  apply hex_digits_inj in H.
  change (16 ^ Z.of_nat 32) with (2 ^ 128) in H.
  now rewrite !Z.mod_small in H by assumption.
Qed.

End UUIDFacts.

(** ** Reads leave the store alone *)

(** C8: [GET /health] and [GET /] answer 200 whatever the store holds, the
    empty store included; neither changes the store, and the health body
    reports the number of stored contacts. *)
Theorem health_and_root_frame env db :
  handle env GET_health db =
    (HealthResponse (mkHealthBody "healthy" "agenda-api" (length db)), db) /\
  response_status (handle env GET_health db).1 = 200 /\
  response_status (handle env GET_root db).1 = 200 /\
  (handle env GET_root db).2 = db.
Proof. repeat split. Qed.

Example health_empty_store :
  handle env0 GET_health [] =
    (HealthResponse (mkHealthBody "healthy" "agenda-api" 0), []).
Proof. reflexivity. Qed.

(** C10: [GET /contatos] and [GET /contatos/{id}] return the store they
    were given, for every store and every identifier; this covers the
    lookups that end in the 404 branch. *)
Theorem reads_frame env db contact_id :
  (handle env GET_contatos db).2 = db /\
  (handle env (GET_contato contact_id) db).2 = db.
Proof.
  split; [reflexivity|]. apply handle_GET_frame. discriminate.
Qed.

(** ** Lookup *)

(** C4: when no stored contact has the requested identifier,
    [GET /contatos/{id}] returns no contact: it fails with status 404 and
    the detail "Contato não encontrado". *)
Theorem lookup_unknown_id env contact_id db :
  Forall (fun c => id c <> contact_id) db ->
  handle env (GET_contato contact_id) db =
    (HTTPExceptionResponse (mkHTTPException 404 "Contato não encontrado"), db).
Proof.
  intros H. apply database_search_None in H.
  simpl. unfold buscar_contato. now rewrite H.
Qed.

Lemma lookup_unknown_id_witness :
  handle env0 (GET_contato "does-not-exist") [ana; bia] =
    (HTTPExceptionResponse (mkHTTPException 404 "Contato não encontrado"),
     [ana; bia]).
Proof.
  apply (lookup_unknown_id env0 "does-not-exist" [ana; bia]).
  repeat constructor; discriminate.
Defined.

(** C5: the lookup walks the store from the oldest contact on and answers
    with the first one whose identifier is the requested one; contacts
    stored after it are not looked at, so of several contacts sharing an
    identifier the earliest created is returned. *)
Theorem lookup_first_match env pre c post contact_id :
  Forall (fun x => id x <> contact_id) pre ->
  id c = contact_id ->
  handle env (GET_contato contact_id) (pre ++ c :: post)%list =
    (ContactResponse c, (pre ++ c :: post)%list).
Proof.
  intros Hpre Hc. simpl. unfold buscar_contato.
  now rewrite (database_search_first pre c post contact_id Hpre Hc).
Qed.

Lemma lookup_first_match_witness :
  handle env0 (GET_contato (id bia)) [ana; bia; bia_again] =
    (ContactResponse bia, [ana; bia; bia_again]).
Proof.
  apply (lookup_first_match env0 [ana] bia [bia_again] (id bia)).
  - repeat constructor; discriminate.
  - reflexivity.
Defined.

(** ** Creation *)

(** C9: a [POST /contatos] that succeeds puts the contact it returns at the
    end of the store and does nothing else to it: the store is one longer,
    and every index that held a contact before holds the same contact
    after. *)
Theorem create_appends env body db c db' :
  handle env (POST_contatos body) db = (ContactResponse c, db') ->
  db' = (db ++ [c])%list /\
  length db' = S (length db) /\
  db' !! length db = Some c /\
  forall i x, db !! i = Some x -> db' !! i = Some x.
Proof.
  intros H. apply create_store in H as ->.
  repeat split.
  - rewrite length_app. simpl. lia.
  - now apply list_lookup_middle.
  - intros i x Hi. now apply lookup_app_l_Some.
Qed.

(** C3: after any trace served from the empty store, [GET /contatos]
    returns the contacts the trace's successful [POST /contatos] returned,
    each as returned and in the order of creation; there are as many of
    them as the trace has successful creations. *)
Theorem list_after_creates tr env :
  handle env GET_contatos (run tr []).2 =
    (ContactsResponse (created tr (run tr []).1), (run tr []).2) /\
  length (created tr (run tr []).1) = creations tr.
Proof.
  split; [|apply created_length].
  simpl. now rewrite run_store at 1.
Qed.

Example list_after_two_creates :
  let tr := [(env0, POST_contatos body_ana); (env0, POST_contatos body_no_phone);
             (env0, GET_contato "does-not-exist"); (env1, POST_contatos body_bob)] in
  exists a b,
    (handle env0 GET_contatos (run tr []).2).1 = ContactsResponse [a; b] /\
    nome a = "Ana" /\ nome b = "Bob" /\
    map response_status (run tr []).1 = [200; 422; 404; 200].
Proof. eexists. eexists. repeat split. Qed.

(** ** Validation of creation requests *)

Example validate_ana :
  validate_ContactCreate body_ana = inl (mkContactCreate "Ana" "123" None None).
Proof. reflexivity. Qed.

Example validate_no_phone :
  validate_ContactCreate body_no_phone = inr [(["body"; "telefone"], missing)].
Proof. reflexivity. Qed.

Example validate_numeric_name :
  validate_ContactCreate body_numeric_name = inr [(["body"; "nome"], string_type)].
Proof. reflexivity. Qed.

Lemma required_str_rejects m key :
  absent_or_mistyped (m !! key) ->
  exists e, e <> [] /\ required_str m key = inr e.
Proof.
  unfold required_str, absent_or_mistyped.
  destruct (m !! key) as [[]|]; simpl; intros H; try contradiction;
    (eexists; split; [|reflexivity]; discriminate).
Qed.

Lemma validate_rejects body :
  absent_or_mistyped (field body "nome") \/
  absent_or_mistyped (field body "telefone") ->
  exists e, e <> [] /\ validate_ContactCreate body = inr e.
Proof.
  intros H.
  destruct body as [| | | | | |m]; simpl; try (eexists; split; [|reflexivity]; discriminate).
  simpl in H.
  destruct H as [H|H]; apply required_str_rejects in H as (e & He & Hr); rewrite Hr.
  - eexists; split; [|reflexivity]. simpl. destruct e; [contradiction | discriminate].
  - destruct (required_str m "nome") as [n|en].
    + eexists; split; [|reflexivity]. simpl. destruct e; [contradiction | discriminate].
    + eexists; split; [|reflexivity]. simpl.
      destruct en; simpl; [|discriminate]. destruct e; [contradiction | discriminate].
Qed.

(** C1, the claim at an empty name and phone: the request is accepted and
    the store grows, so not every request with an empty [nome] or
    [telefone] is answered 422 with the store untouched. *)
Lemma POST_blank_accepted :
  ~ (forall env body db,
       field body "nome" = Some (JStr EmptyString) \/
       field body "telefone" = Some (JStr EmptyString) ->
       response_status (handle env (POST_contatos body) db).1 = 422 /\
       (handle env (POST_contatos body) db).2 = db).
Proof.
  intros H. destruct (H env0 body_blank []) as [Hs _].
  - left. reflexivity.
  - vm_compute in Hs. discriminate Hs.
Qed.

Example POST_blank_stored :
  exists c, handle env0 (POST_contatos body_blank) [] = (ContactResponse c, [c]) /\
            nome c = EmptyString /\ telefone c = EmptyString.
Proof. eexists. repeat split. Qed.

(** C1, amended: a creation request whose [nome] or [telefone] is absent or
    is not a string is answered 422 by validation alone: the answer does
    not depend on the environment the handler would read, and the store is
    returned as it was. *)
Theorem POST_rejects_absent_or_mistyped body :
  absent_or_mistyped (field body "nome") \/
  absent_or_mistyped (field body "telefone") ->
  exists e, e <> [] /\
    validate_ContactCreate body = inr e /\
    forall env db,
      handle env (POST_contatos body) db = (ValidationErrorResponse e, db) /\
      response_status (handle env (POST_contatos body) db).1 = 422.
Proof.
  intros H. destruct (validate_rejects body H) as (e & He & Hv).
  exists e. repeat split; try assumption; simpl; now rewrite Hv.
Qed.

Lemma POST_rejects_absent_or_mistyped_witness :
  exists e, e <> [] /\
    validate_ContactCreate body_no_phone = inr e /\
    forall env db,
      handle env (POST_contatos body_no_phone) db = (ValidationErrorResponse e, db) /\
      response_status (handle env (POST_contatos body_no_phone) db).1 = 422.
Proof.
  apply (POST_rejects_absent_or_mistyped body_no_phone).
  right. vm_compute. exact I.
Defined.

Lemma create_appends_witness :
  exists c,
    [ana; c] = ([ana] ++ [c])%list /\
    length [ana; c] = S (length [ana]) /\
    [ana; c] !! length [ana] = Some c /\
    forall i x, [ana] !! i = Some x -> [ana; c] !! i = Some x.
Proof.
  eexists.
  apply (create_appends env1 body_bob [ana]).
  vm_compute. reflexivity.
Defined.

(** ** Lookup after creation *)

(** C2, the claim when [uuid4] repeats a value: the second creation returns
    a contact named Bob under an identifier the store already holds, and
    the lookup by that identifier answers with the older contact, Ana. *)
Lemma lookup_after_create_collision :
  ~ (forall tr env body c db' env',
       handle env (POST_contatos body) (run tr []).2 = (ContactResponse c, db') ->
       handle env' (GET_contato (id c)) db' = (ContactResponse c, db')).
Proof.
  intros H.
  pose (env := mkEnv (urandom16 env0) t1).
  specialize (H [(env0, POST_contatos body_ana)] env body_bob
                (adicionar_contato env (mkContactCreate "Bob" "456" None None) []).1
                _ env1 eq_refl).
  vm_compute in H. discriminate H.
Qed.

(** C2, amended: when the identifier drawn for a new contact is not the
    identifier of a contact already stored, looking that identifier up
    right after the creation returns the contact the creation returned,
    field for field. *)
Theorem lookup_after_create env body db c db' env' :
  handle env (POST_contatos body) db = (ContactResponse c, db') ->
  Forall (fun x => id x <> id c) db ->
  handle env' (GET_contato (id c)) db' = (ContactResponse c, db').
Proof.
  intros H Hfresh.
  apply create_store in H as ->.
  simpl. unfold buscar_contato.
  now rewrite (database_search_first db c [] (id c) Hfresh eq_refl).
Qed.

Lemma lookup_after_create_witness :
  exists c db',
    handle env1 (POST_contatos body_bob) [ana] = (ContactResponse c, db') /\
    handle env0 (GET_contato (id c)) db' = (ContactResponse c, db').
Proof.
  eexists. eexists. split.
  - vm_compute. reflexivity.
  - apply (lookup_after_create env1 body_bob [ana]).
    + vm_compute. reflexivity.
    + repeat constructor. vm_compute. discriminate.
Defined.

(** ** Identifiers of created contacts *)

Lemma create_id env body db c db' :
  handle env (POST_contatos body) db = (ContactResponse c, db') ->
  id c = UUID.str (UUID.uuid4 env).
Proof.
  intros H.
  now apply handle_POST_inv in H as [(e & _ & [=] & _)|(ct & _ & [= ->] & _)].
Qed.

(** The identifiers in the store are the printed draws, in order. *)
Lemma run_ids tr db :
  map id (run tr db).2 = (map id db ++ map UUID.str (draws tr))%list.
Proof.
  revert db. induction tr as [|[env req] tr IH]; intros db; simpl.
  - now rewrite app_nil_r.
  - destruct (handle env req db) as [r db1] eqn:Hh.
    specialize (IH db1). destruct (run tr db1) as [rs db2]. simpl in *.
    rewrite IH. clear IH. destruct req as [| |body| |i]; simpl creates; cbv iota.
    + simpl in Hh. now injection Hh as _ <-.
    + simpl in Hh. now injection Hh as _ <-.
    + apply handle_POST_inv in Hh as [(e & Hv & _ & ->)|(ct & Hv & _ & ->)];
        rewrite Hv; [reflexivity|].
      rewrite map_app. simpl. now rewrite <- app_assoc.
    + simpl in Hh. now injection Hh as _ <-.
    + pose proof (handle_GET_frame env (GET_contato i) db) as Hf.
      rewrite Hh in Hf. simpl in Hf. now rewrite Hf.
Qed.

Lemma draws_range tr :
  Forall Env_wf (map fst tr) -> Forall (fun u => 0 <= u < 2 ^ 128) (draws tr).
Proof.
  induction tr as [|[env req] tr IH]; simpl; intros H; [constructor|].
  inversion H as [|? ? Hwf Htl]; subst.
  destruct (creates req); [constructor|]; auto.
  now apply UUIDFacts.with_version4_range.
Qed.

Ltac env_wf := split; [vm_compute; discriminate | vm_compute; reflexivity].

(** C6, the claim when [uuid4] repeats a value: two creations that draw
    the same sixteen bytes get the same identifier. *)
Lemma created_id_collision :
  ~ (forall tr env body c db',
       Forall Env_wf (map fst tr) -> Env_wf env ->
       handle env (POST_contatos body) (run tr []).2 = (ContactResponse c, db') ->
       id c <> EmptyString /\ Forall (fun x => id x <> id c) (run tr []).2).
Proof.
  intros H.
  pose (env := mkEnv (urandom16 env0) t1).
  eassert (Hh : handle env (POST_contatos body_bob)
                       (run [(env0, POST_contatos body_ana)] []).2
                = (ContactResponse _, _)) by (vm_compute; reflexivity).
  apply H in Hh as [_ Hall].
  - vm_compute in Hall. inversion Hall as [|? ? Hne _]. now apply Hne.
  - constructor; [env_wf | constructor].
  - env_wf.
Qed.

(** C6, amended: the identifier of a created contact is the printed
    [uuid4] value drawn by the service, whatever the request body says; it
    is 36 characters long, hence not empty; and it differs from the
    identifier of every contact created earlier in the process whenever
    the value drawn differs from the values drawn for them. *)
Theorem created_id_fresh tr env body c db' :
  Forall Env_wf (map fst tr) -> Env_wf env ->
  handle env (POST_contatos body) (run tr []).2 = (ContactResponse c, db') ->
  id c = UUID.str (UUID.uuid4 env) /\
  String.length (id c) = 36%nat /\
  id c <> EmptyString /\
  (Forall (fun u => u <> UUID.uuid4 env) (draws tr) ->
   Forall (fun x => id x <> id c) (run tr []).2).
Proof.
  intros Htr Henv H. apply create_id in H. rewrite H.
  split; [reflexivity|].
  split; [apply UUIDFacts.str_length|].
  split; [apply UUIDFacts.str_nonempty|].
  intros Hdraws.
  apply Forall_map with (f := id) (P := fun i => i <> UUID.str (UUID.uuid4 env)).
  rewrite run_ids. simpl. apply Forall_map.
  pose proof (draws_range tr Htr) as Hrange.
  rewrite Forall_forall in *. intros u Hu E.
  apply (Hdraws u Hu).
  apply UUIDFacts.str_inj; auto.
  now apply UUIDFacts.with_version4_range.
Qed.

Lemma created_id_fresh_witness :
  exists c db',
    handle env1 (POST_contatos body_bob)
           (run [(env0, POST_contatos body_ana)] []).2 = (ContactResponse c, db') /\
    id c = "fedcba98-7654-4210-bedc-ba9876543210" /\
    Forall (fun x => id x <> id c) (run [(env0, POST_contatos body_ana)] []).2.
Proof.
  eexists. eexists. split; [vm_compute; reflexivity|].
  eassert (Hh : handle env1 (POST_contatos body_bob)
                       (run [(env0, POST_contatos body_ana)] []).2
                = (ContactResponse _, _)) by (vm_compute; reflexivity).
  apply created_id_fresh in Hh as (Hid & _ & _ & Hfresh).
  - split; [exact Hid|]. apply Hfresh.
    repeat constructor. vm_compute. intros [=].
  - constructor; [env_wf | constructor].
  - env_wf.
Defined.

(** * Further properties of the handlers *)

(** ** The store over a process lifetime *)

Lemma database_search_app db extra i c :
  database_search db i = Some c ->
  database_search (db ++ extra)%list i = Some c.
Proof.
  induction db as [|x db IH]; simpl; [discriminate|].
  destruct (String.eqb (id x) i); [trivial | exact IH].
Qed.

Lemma database_search_In db i c :
  database_search db i = Some c -> In c db /\ id c = i.
Proof.
  intros H. apply database_search_Some in H as (pre & post & -> & _ & Hc).
  split; [|exact Hc]. apply in_or_app. right. now left.
Qed.

Lemma database_search_hit db c :
  In c db -> exists c', database_search db (id c) = Some c' /\ id c' = id c.
Proof.
  induction db as [|x db IH]; simpl; [contradiction|].
  intros [->|Hin].
  - rewrite String.eqb_refl. now exists c.
  - destruct (String.eqb_spec (id x) (id c)) as [E|E]; [now exists x | auto].
Qed.

Lemma database_search_unique db c :
  NoDup (map id db) -> In c db -> database_search db (id c) = Some c.
Proof.
  induction db as [|x db IH]; simpl; [contradiction|].
  intros Hnd Hin. apply NoDup_cons in Hnd as [Hx Hnd].
  destruct Hin as [->|Hin]; [now rewrite String.eqb_refl|].
  destruct (String.eqb_spec (id x) (id c)) as [E|E]; [|now apply IH].
  exfalso. apply Hx. rewrite E. apply list_elem_of_In. now apply in_map.
Qed.

Lemma handle_GET_contato_search env i db :
  handle env (GET_contato i) db =
    (match database_search db i with
     | Some c => ContactResponse c
     | None => HTTPExceptionResponse (mkHTTPException 404 "Contato não encontrado")
     end, db).
Proof. simpl. unfold buscar_contato. now destruct (database_search db i). Qed.

(** The store only grows, and only at its end: whatever requests are
    served, in whatever order, the store afterwards is the store before
    followed by one contact for each creation request that passed
    validation.  No request removes, moves or rewrites a stored contact. *)
Theorem store_append_only tr db :
  exists added,
    (run tr db).2 = (db ++ added)%list /\
    length added = creations tr /\
    forall i x, db !! i = Some x -> (run tr db).2 !! i = Some x.
Proof.
  exists (created tr (run tr db).1). split; [apply run_store|].
  split; [apply created_length|].
  intros i x Hi. rewrite run_store. now apply lookup_app_l_Some.
Qed.

(** After any trace served from the empty store, [GET /health] reports as
    [total_contatos] the number of creation requests of the trace that
    passed validation. *)
Theorem health_counts_creations tr env :
  (handle env GET_health (run tr []).2).1 =
    HealthResponse (mkHealthBody "healthy" "agenda-api" (creations tr)).
Proof.
  simpl. rewrite run_store. simpl. now rewrite created_length.
Qed.

(** A contact a lookup has returned stays the answer for its identifier:
    whatever requests are served afterwards, later creations included, the
    same lookup returns the same contact. *)
Theorem lookup_stable env i db c tr env' :
  (handle env (GET_contato i) db).1 = ContactResponse c ->
  (handle env' (GET_contato i) (run tr db).2).1 = ContactResponse c.
Proof.
  rewrite !handle_GET_contato_search. simpl.
  destruct (database_search db i) as [c0|] eqn:Hs; [|discriminate].
  intros [= ->]. rewrite run_store.
  now rewrite (database_search_app db _ i c Hs).
Qed.

Lemma lookup_stable_witness :
  (handle env0 (GET_contato (id ana))
          (run [(env1, POST_contatos body_bob); (env0, GET_contatos)] [ana; bia]).2).1
  = ContactResponse ana.
Proof.
  apply (lookup_stable env0 (id ana) [ana; bia] ana). reflexivity.
Defined.

(** A lookup that answers with a contact answers with a stored one that
    carries the requested identifier; a lookup never makes a contact up and
    never answers with the contact of another identifier. *)
Theorem lookup_sound env i db c :
  (handle env (GET_contato i) db).1 = ContactResponse c ->
  In c db /\ id c = i.
Proof.
  rewrite handle_GET_contato_search. simpl.
  destruct (database_search db i) as [c0|] eqn:Hs; [|discriminate].
  intros [= ->]. now apply database_search_In.
Qed.

Lemma lookup_sound_witness :
  In bia [ana; bia; bia_again] /\ id bia = id bia_again.
Proof.
  apply (lookup_sound env0 (id bia_again) [ana; bia; bia_again] bia).
  reflexivity.
Defined.

(** The identifier of every contact [GET /contatos] lists resolves: looking
    it up answers 200 with a contact of that identifier, never 404. *)
Theorem listed_id_resolves env env' db c :
  (exists l, (handle env GET_contatos db).1 = ContactsResponse l /\ In c l) ->
  exists c', (handle env' (GET_contato (id c)) db).1 = ContactResponse c' /\
             id c' = id c.
Proof.
  intros (l & [= <-] & Hin).
  rewrite handle_GET_contato_search. simpl.
  destruct (database_search_hit db c Hin) as (c' & -> & E). now exists c'.
Qed.

Lemma listed_id_resolves_witness :
  exists c', (handle env1 (GET_contato (id bia_again)) [ana; bia; bia_again]).1
             = ContactResponse c' /\ id c' = id bia_again.
Proof.
  apply (listed_id_resolves env0 env1 [ana; bia; bia_again] bia_again).
  exists [ana; bia; bia_again]. split; [reflexivity|]. right. right. now left.
Defined.

Lemma run_ids_NoDup tr :
  Forall Env_wf (map fst tr) -> NoDup (draws tr) -> NoDup (map id (run tr []).2).
Proof.
  intros Hwf Hnd. rewrite run_ids. simpl.
  pose proof (draws_range tr Hwf) as Hrange.
  induction Hnd as [|u us Hu Hnd IH]; simpl; [constructor|].
  inversion Hrange as [|? ? Hur Husr]; subst.
  constructor; [|now apply IH].
  intros Hin. apply list_elem_of_In, in_map_iff in Hin as (v & E & Hv).
  rewrite Forall_forall in Husr.
  apply UUIDFacts.str_inj in E; [|now apply Husr, list_elem_of_In|exact Hur].
  subst v. now apply Hu, list_elem_of_In.
Qed.

(** When the UUID values drawn over a process lifetime are pairwise
    distinct, the stored identifiers are pairwise distinct, and listing and
    lookup agree: every contact [GET /contatos] lists is the very contact
    [GET /contatos/{id}] returns for its identifier. *)
Theorem distinct_draws_lookup_listed tr env c :
  Forall Env_wf (map fst tr) ->
  NoDup (draws tr) ->
  In c (run tr []).2 ->
  NoDup (map id (run tr []).2) /\
  handle env (GET_contato (id c)) (run tr []).2 = (ContactResponse c, (run tr []).2).
Proof.
  intros Hwf Hnd Hin.
  pose proof (run_ids_NoDup tr Hwf Hnd) as Hids.
  split; [exact Hids|].
  rewrite handle_GET_contato_search.
  now rewrite (database_search_unique _ c Hids Hin).
Qed.

Lemma distinct_draws_lookup_listed_witness :
  let tr := [(env0, POST_contatos body_ana); (env1, POST_contatos body_bob)] in
  exists c,
    nome c = "Bob" /\
    NoDup (map id (run tr []).2) /\
    handle env0 (GET_contato (id c)) (run tr []).2
      = (ContactResponse c, (run tr []).2).
Proof.
  intros tr. eexists. split; [|eapply (distinct_draws_lookup_listed tr env0)].
  4: { right. left. reflexivity. }
  - reflexivity.
  - constructor; [env_wf|]. constructor; [env_wf | constructor].
  - apply (bool_decide_unpack _). vm_compute. exact I.
Defined.

(** Only a creation whose body passed validation writes: a request that
    leaves the store different from how it found it is a [POST /contatos]
    whose body validated, and the store it leaves is the old one followed
    by the contact the handler returned.  A validation error comes only
    from [POST /contatos], an [HTTPException] only from a lookup that found
    nothing, always 404 with the one detail; both come with the store
    untouched.  Nothing is said here of how a returned value is rendered
    and sent. *)
Theorem only_accepted_POST_writes env req db :
  ((handle env req db).2 <> db ->
   exists body contato,
     req = POST_contatos body /\
     validate_ContactCreate body = inl contato /\
     handle env req db =
       (ContactResponse (adicionar_contato env contato db).1,
        (db ++ [(adicionar_contato env contato db).1])%list)) /\
  (forall e,
     (handle env req db).1 = ValidationErrorResponse e ->
     (exists body, req = POST_contatos body /\
                   validate_ContactCreate body = inr e) /\
     (handle env req db).2 = db) /\
  (forall e,
     (handle env req db).1 = HTTPExceptionResponse e ->
     (exists i, req = GET_contato i /\ database_search db i = None) /\
     e = mkHTTPException 404 "Contato não encontrado" /\
     (handle env req db).2 = db).
Proof.
  destruct req as [| |body| |i].
  - simpl. repeat split; try discriminate; congruence.
  - simpl. repeat split; try discriminate; congruence.
  - destruct (validate_ContactCreate body) as [ct|e0] eqn:Hv.
    + rewrite (handle_POST_valid env body ct db Hv). simpl.
      split; [|split]; try discriminate.
      intros _. exists body, ct. now repeat split.
    + simpl. rewrite Hv. simpl.
      split; [congruence|]. split; [|discriminate].
      intros e [= <-]. split; [|reflexivity]. now exists body.
  - simpl. repeat split; try discriminate; congruence.
  - rewrite handle_GET_contato_search. simpl.
    destruct (database_search db i) as [c|] eqn:Hs; simpl.
    + repeat split; try discriminate; congruence.
    + split; [congruence|]. split; [discriminate|].
      intros e [= <-]. split; [|split; reflexivity]. now exists i.
Qed.

(** ** What validation accepts *)

Lemma optional_str_inl m key v :
  optional_str m key = inl v <-> optional_field_is (m !! key) v.
Proof.
  unfold optional_str, optional_field_is.
  destruct (m !! key) as [[]|]; simpl; destruct v; split;
    try discriminate; try congruence;
    try (intros [H|H]; discriminate H); auto.
Qed.

Lemma required_str_inl m key s :
  required_str m key = inl s <-> m !! key = Some (JStr s).
Proof.
  unfold required_str. destruct (m !! key) as [[]|]; simpl; split;
    try discriminate; congruence.
Qed.

Lemma validate_inl body contato :
  validate_ContactCreate body = inl contato <->
  field body "nome" = Some (JStr (cc_nome contato)) /\
  field body "telefone" = Some (JStr (cc_telefone contato)) /\
  optional_field_is (field body "email") (cc_email contato) /\
  optional_field_is (field body "endereco") (cc_endereco contato).
Proof.
  destruct contato as [n t e a]. simpl.
  destruct body as [| | | | | |m]; simpl;
    try (split; [discriminate | intros [H _]; discriminate H]).
  rewrite <- !required_str_inl, <- !optional_str_inl.
  destruct (required_str m "nome") as [n'|], (required_str m "telefone") as [t'|],
    (optional_str m "email") as [e'|], (optional_str m "endereco") as [a'|];
    simpl; split; try discriminate;
    try (intros [= -> -> -> ->]; now repeat split);
    intros (H1 & H2 & H3 & H4); congruence.
Qed.

(** A body passes validation exactly when it is an object whose [nome] and
    [telefone] are strings and whose [email] and [endereco] are each a
    string, [null] or absent; the validated payload then carries those
    four values, [None] standing for absent and for [null].  No other
    condition (length, format, other keys) is checked. *)
Theorem validate_accepts_iff body contato :
  validate_ContactCreate body = inl contato <->
  field body "nome" = Some (JStr (cc_nome contato)) /\
  field body "telefone" = Some (JStr (cc_telefone contato)) /\
  optional_field_is (field body "email") (cc_email contato) /\
  optional_field_is (field body "endereco") (cc_endereco contato).
Proof. apply validate_inl. Qed.

(** The contact a creation returns and stores carries the body's values
    as sent, with no trimming or rewriting: [nome] and [telefone] are the
    strings of the body, [email] and [endereco] are the body's strings or
    [None] when absent or [null], and [created_at] is the clock reading of
    the request. *)
Theorem created_contact_echoes_body env body db c db' :
  handle env (POST_contatos body) db = (ContactResponse c, db') ->
  field body "nome" = Some (JStr (nome c)) /\
  field body "telefone" = Some (JStr (telefone c)) /\
  optional_field_is (field body "email") (email c) /\
  optional_field_is (field body "endereco") (endereco c) /\
  created_at c = now env.
Proof.
  intros H.
  apply handle_POST_inv in H as [(e & _ & [=] & _)|(ct & Hv & [= ->] & _)].
  apply validate_inl in Hv as (Hn & Ht & He & Ha). simpl.
  now repeat split.
Qed.

Lemma created_contact_echoes_body_witness :
  exists c,
    field body_bob "nome" = Some (JStr (nome c)) /\
    field body_bob "telefone" = Some (JStr (telefone c)) /\
    optional_field_is (field body_bob "email") (email c) /\
    optional_field_is (field body_bob "endereco") (endereco c) /\
    created_at c = now env1.
Proof.
  eexists. eapply (created_contact_echoes_body env1 body_bob [ana]).
  vm_compute. reflexivity.
Defined.

(** Creation does not look for an existing contact with the same data: a
    body accepted once is accepted again, and the second request stores a
    second contact with the same [nome], [telefone], [email] and
    [endereco] after the first. *)
Theorem same_body_stored_twice env1 env2 body db c1 db1 :
  handle env1 (POST_contatos body) db = (ContactResponse c1, db1) ->
  exists c2,
    handle env2 (POST_contatos body) db1 =
      (ContactResponse c2, (db ++ [c1; c2])%list) /\
    nome c2 = nome c1 /\ telefone c2 = telefone c1 /\
    email c2 = email c1 /\ endereco c2 = endereco c1.
Proof.
  intros H.
  apply handle_POST_inv in H as [(e & _ & [=] & _)|(ct & Hv & [= ->] & ->)].
  exists (adicionar_contato env2 ct []).1.
  rewrite (handle_POST_valid env2 body ct _ Hv).
  split; [|now repeat split].
  simpl. now rewrite <- app_assoc.
Qed.

Lemma same_body_stored_twice_witness :
  exists c1 c2,
    handle env1 (POST_contatos body_ana)
           (handle env0 (POST_contatos body_ana) []).2 =
      (ContactResponse c2, [c1; c2]) /\
    nome c2 = nome c1 /\ telefone c2 = telefone c1 /\
    email c2 = email c1 /\ endereco c2 = endereco c1.
Proof.
  eexists.
  apply (same_body_stored_twice env0 env1 body_ana []).
  vm_compute. reflexivity.
Defined.



(** ** The shape of issued identifiers *)

Module UUIDShape.
Import UUID.

Lemma hex_char_is_hex d : is_hex_digit (hex_char d) = true.
Proof.
  unfold hex_char.
  repeat match goal with
         | |- context [match ?x with _ => _ end] => destruct x
         end; reflexivity.
Qed.

Lemma hex_digits_all_hex k n : all_hex (hex_digits k n) = true.
Proof.
  induction k as [|k IH]; simpl; [reflexivity|].
  now rewrite hex_char_is_hex, IH.
Qed.

(** Bits 76 to 79 of a version-4 value spell 4. *)
Lemma version_nibble r : Z.land (Z.shiftr (with_version4 r) 76) 15 = 4.
Proof.
  apply Z.bits_inj'. intros i Hi.
  rewrite Z.land_spec, Z.shiftr_spec by lia. unfold with_version4.
  rewrite Z.lor_spec, Z.land_spec.
  destruct (Z.ltb_spec i 4) as [Hlt|Hge].
  - assert (E : i = 0 \/ i = 1 \/ i = 2 \/ i = 3) by lia.
    destruct E as [-> | [-> | [-> | ->]]]; simpl Z.add;
      change (Z.testbit (Z.lnot (Z.shiftl 0xf000 64)) _) with false;
      rewrite andb_false_r; reflexivity.
  - rewrite (Z.bits_above_log2 15 i) by (simpl; lia).
    rewrite (Z.bits_above_log2 4 i) by (simpl; lia).
    apply andb_false_r.
Qed.

(** Bits 62 and 63 of a version-4 value are 0 and 1. *)
Lemma variant_nibble r :
  8 <= Z.land (Z.shiftr (with_version4 r) 60) 15 <= 11.
Proof.
  set (v := Z.land (Z.shiftr (with_version4 r) 60) 15).
  assert (Hr : 0 <= v < 16) by apply UUIDFacts.nibble_range.
  assert (H3 : Z.testbit v 3 = true).
  { unfold v. rewrite Z.land_spec, Z.shiftr_spec by lia. unfold with_version4.
    simpl Z.add. rewrite Z.lor_spec, Z.land_spec, Z.lor_spec.
    change (Z.testbit (Z.shiftl 0x8000 48) 63) with true.
    now rewrite orb_true_r. }
  assert (H2 : Z.testbit v 2 = false).
  { unfold v. rewrite Z.land_spec, Z.shiftr_spec by lia. unfold with_version4.
    simpl Z.add. rewrite Z.lor_spec, Z.land_spec, Z.lor_spec, Z.land_spec.
    change (Z.testbit (Z.lnot (Z.shiftl 0xc000 48)) 62) with false.
    now rewrite andb_false_r. }
  apply Z.testbit_true in H3; [|lia]. apply Z.testbit_false in H2; [|lia].
  change (2 ^ 3) with 8 in H3. change (2 ^ 2) with 4 in H2.
  clearbody v. Z.div_mod_to_equations. lia.
Qed.

Lemma variant_char d :
  8 <= d <= 11 ->
  existsb (String.eqb (String (hex_char d) EmptyString)) ["8"; "9"; "a"; "b"]
  = true.
Proof.
  intros H. assert (E : d = 8 \/ d = 9 \/ d = 10 \/ d = 11) by lia.
  destruct E as [-> | [-> | [-> | ->]]]; reflexivity.
Qed.

Lemma grouped_shaped x :
  String.length x = 32%nat ->
  all_hex x = true ->
  substring 12 1 x = "4" ->
  existsb (String.eqb (substring 16 1 x)) ["8"; "9"; "a"; "b"] = true ->
  uuid4_shaped (grouped x) = true.
Proof.
  intros Hx. UUIDFacts.explode x Hx.
  simpl all_hex. simpl substring. intros Hall [= ->] Hvar.
  repeat (apply andb_prop in Hall as [? Hall]).
  unfold uuid4_shaped, grouped. simpl substring. simpl String.length.
  simpl append. simpl substring. simpl all_hex.
  change (String.eqb "-" "-") with true. change (String.eqb "4" "4") with true.
  rewrite Hvar.
  repeat match goal with
         | H : is_hex_digit _ = true |- _ => rewrite H; clear H
         end.
  reflexivity.
Qed.

End UUIDShape.

(** Every contact a [POST /contatos] returns carries an identifier in the
    text form of a version-4 UUID: 36 characters, lower-case hexadecimal
    digits in groups of 8, 4, 4, 4 and 12 separated by hyphens, the third
    group starting with 4 and the fourth with 8, 9, a or b, whatever
    sixteen bytes the random source gave. *)
Theorem created_id_uuid4_shaped env body db c db' :
  handle env (POST_contatos body) db = (ContactResponse c, db') ->
  uuid4_shaped (id c) = true.
Proof.
  intros H. apply create_id in H. rewrite H.
  unfold UUID.str, UUID.hex, UUID.uuid4. cbv zeta.
  apply UUIDShape.grouped_shaped.
  - apply UUIDFacts.hex_digits_length.
  - apply UUIDShape.hex_digits_all_hex.
  - change (substring 12 1 (UUID.hex_digits 32 (UUID.with_version4 (urandom16 env))))
      with (String (UUID.hex_char
                      (Z.land (Z.shiftr (UUID.with_version4 (urandom16 env)) 76) 15))
                   EmptyString).
    now rewrite UUIDShape.version_nibble.
  - change (substring 16 1 (UUID.hex_digits 32 (UUID.with_version4 (urandom16 env))))
      with (String (UUID.hex_char
                      (Z.land (Z.shiftr (UUID.with_version4 (urandom16 env)) 60) 15))
                   EmptyString).
    apply UUIDShape.variant_char, UUIDShape.variant_nibble.
Qed.

Lemma created_id_uuid4_shaped_witness :
  exists c, (handle env1 (POST_contatos body_bob) [ana]).1 = ContactResponse c /\
            uuid4_shaped (id c) = true.
Proof.
  eexists. split; [reflexivity|].
  eapply (created_id_uuid4_shaped env1 body_bob [ana]).
  vm_compute. reflexivity.
Defined.

(** ** The request log *)

Section ObservabilityFacts.

Context {float : Type}.
Variable elapsed : float -> float -> float.

Lemma database_search_logged_fst db i :
  (database_search_logged (float := float) db i).1 = database_search db i.
Proof.
  induction db as [|x db IH]; simpl; [reflexivity|].
  now destruct (String.eqb (id x) i).
Qed.

Lemma database_search_logged_no_warning db i :
  existsb is_warning (database_search_logged (float := float) db i).2 = false.
Proof.
  induction db as [|x db IH]; simpl; [reflexivity|].
  now destruct (String.eqb (id x) i).
Qed.

Lemma call_next_handle env req db :
  (call_next (float := float) env req db).1 = handle env req db.
Proof.
  destruct req as [| |body| |i]; simpl; try reflexivity.
  - now destruct (validate_ContactCreate body).
  - unfold buscar_contato_logged, buscar_contato.
    rewrite <- (database_search_logged_fst db i).
    now destruct (database_search_logged db i) as [[c|] lg].
Qed.

Lemma log_requests_handle env times req db :
  (log_requests elapsed env times req db).1 = handle env (route req) db.
Proof.
  unfold log_requests. rewrite <- (call_next_handle env (route req) db).
  now destruct (call_next env (route req) db) as [[r db'] lg].
Qed.

(** Logging changes nothing a client can see: served through the
    middleware and the logging handlers, a trace gets the same responses
    and leaves the same store as served by the handlers alone. *)
Theorem logging_transparent tr db :
  (run_logged elapsed tr db).1 = run (routed tr) db.
Proof.
  revert db. induction tr as [|[[env times] req] tr IH]; intros db; simpl;
    [reflexivity|].
  pose proof (log_requests_handle env times req db) as Hh.
  destruct (log_requests elapsed env times req db) as [[r db1] lg].
  simpl in Hh. rewrite <- Hh. specialize (IH db1).
  destruct (run_logged elapsed tr db1) as [[rs db2] lg']. simpl in *.
  now rewrite <- IH.
Qed.

Lemma call_next_warning env req db :
  existsb is_warning (call_next (float := float) env req db).2 = true <->
  exists i, req = GET_contato i /\ database_search db i = None.
Proof.
  destruct req as [| |body| |i]; simpl;
    try (split; [discriminate | intros (j & [=] & _)]).
  - destruct (validate_ContactCreate body); simpl;
      (split; [discriminate | intros (j & [=] & _)]).
  - unfold buscar_contato_logged.
    pose proof (database_search_logged_no_warning db i) as Hw.
    pose proof (database_search_logged_fst db i) as Hf.
    destruct (database_search_logged db i) as [[c|] lg]; simpl in *.
    + rewrite Hw. split; [discriminate|].
      intros (j & [= <-] & Hj). congruence.
    + rewrite existsb_app. simpl. rewrite orb_true_r.
      split; [|reflexivity]. intros _. now exists i.
Qed.

Lemma handle_not_found env req db :
  (handle env req db).1 =
    HTTPExceptionResponse (mkHTTPException 404 "Contato não encontrado") <->
  exists i, req = GET_contato i /\ database_search db i = None.
Proof.
  destruct req as [| |body| |i];
    try (simpl; split; [discriminate | intros (j & [=] & _)]).
  - simpl. destruct (validate_ContactCreate body); simpl;
      (split; [discriminate | intros (j & [=] & _)]).
  - rewrite handle_GET_contato_search. simpl.
    destruct (database_search db i) as [c|] eqn:Hs.
    + split; [discriminate|]. intros (j & [= <-] & Hj). congruence.
    + split; [|reflexivity]. intros _. now exists i.
Qed.

(** On a request routed to one of the five handlers the middleware for
    every request is [log_requests]. *)
Lemma log_requests_any_routed env times m u c r db :
  log_requests_any elapsed env times (mkIncoming m u c (to_handler r)) db =
    (let '(resp, db', lg) :=
       log_requests elapsed env times (mkHttpRequest m u c r) db in
     (Some (handler_answer resp), db', lg)).
Proof.
  unfold log_requests_any, log_requests, call_next_any. simpl.
  now destruct (call_next env r db) as [[resp db'] lg].
Qed.

(** Of all the requests that reach the middleware, those the router
    answers by itself and those served by other routes included, a record
    of level [WARNING] is written exactly for a request routed to the
    lookup handler whose identifier no stored contact carries, that is,
    exactly when [buscar_contato] raises its 404.  A 404 of the router
    writes the two [INFO] records of the middleware and no [WARNING]. *)
Theorem warning_iff_lookup_fails env times (req : incoming) db :
  (existsb is_warning (log_requests_any elapsed env times req db).2 = true <->
   exists i, in_dispatch req = to_handler (GET_contato i) /\
             Forall (fun c => id c <> i) db) /\
  (existsb is_warning (log_requests_any elapsed env times req db).2 = true <->
   (log_requests_any elapsed env times req db).1.1 =
     Some (handler_answer
             (HTTPExceptionResponse
                (mkHTTPException 404 "Contato não encontrado")))).
Proof.
  unfold log_requests_any, call_next_any.
  destruct (in_dispatch req) as [r|st|].
  - pose proof (call_next_warning env r db) as Hw.
    pose proof (call_next_handle env r db) as Hh.
    pose proof (handle_not_found env r db) as Hn. rewrite <- Hh in Hn.
    destruct (call_next env r db) as [[resp db'] lg]. simpl in *.
    rewrite existsb_app. simpl. rewrite orb_false_r. rewrite Hw.
    split.
    + split.
      * intros (i & -> & Hs). exists i. split; [reflexivity|].
        now apply database_search_None.
      * intros (i & [= ->] & Hs). exists i. split; [reflexivity|].
        now apply database_search_None.
    + rewrite <- Hn. split; [now intros -> | now intros [= ->]].
  - simpl. split; (split; [discriminate|]).
    + intros (i & [=] & _).
    + intros [=].
  - simpl. split; (split; [discriminate|]).
    + intros (i & [=] & _).
    + intros [=].
Qed.

(** A creation request answered 422 never reaches the handler: the log of
    the request holds the two records of the middleware and nothing
    between them, so neither [creating_contact] nor [contact_created]. *)
Theorem rejected_body_log env times req db :
  response_status (log_requests elapsed env times req db).1.1 = 422 ->
  (log_requests elapsed env times req db).2 =
    [(INFO, request_started (method req) (url req)
              (match client req with Some host => host | None => "unknown" end));
     (INFO, request_completed (method req) (url req) 422
              (elapsed (end_time times) (start_time times)))].
Proof.
  unfold log_requests. destruct (route req) as [| |body| |i]; simpl;
    try discriminate.
  - destruct (validate_ContactCreate body); simpl; [discriminate | reflexivity].
  - unfold buscar_contato_logged.
    destruct (database_search_logged db i) as [[c|] lg]; simpl; discriminate.
Qed.

Lemma created_totals_app (l1 l2 : log float) :
  created_totals (l1 ++ l2)%list = (created_totals l1 ++ created_totals l2)%list.
Proof.
  induction l1 as [|[lvl ev] l1 IH]; simpl; [reflexivity|].
  destruct ev; simpl; now rewrite IH.
Qed.

Lemma database_search_logged_totals db i :
  created_totals (database_search_logged (float := float) db i).2 = [].
Proof.
  induction db as [|x db IH]; simpl; [reflexivity|].
  now destruct (String.eqb (id x) i).
Qed.

Lemma log_requests_totals env times req db :
  created_totals (log_requests elapsed env times req db).2 =
    (if creates (route req) then [S (length db)] else []) /\
  length (log_requests elapsed env times req db).1.2 =
    ((if creates (route req) then 1 else 0) + length db)%nat.
Proof.
  unfold log_requests. destruct (route req) as [| |body| |i]; simpl; auto.
  - destruct (validate_ContactCreate body); simpl; [|auto].
    rewrite length_app. simpl. split; [|lia]. f_equal. lia.
  - unfold buscar_contato_logged.
    pose proof (database_search_logged_totals db i) as Ht.
    destruct (database_search_logged db i) as [[c|] lg]; simpl in *.
    + rewrite created_totals_app, Ht. auto.
    + rewrite !created_totals_app, Ht. auto.
Qed.

(** The [total_contacts] logged by the [contact_created] records of a
    process lifetime count up by one from the size the store started with:
    from the empty store they read 1, 2, ..., one for each creation that
    passed validation. *)
Theorem created_totals_count_up tr db :
  created_totals (run_logged elapsed tr db).2 =
    seq (S (length db)) (creations (routed tr)).
Proof.
  revert db. induction tr as [|[[env times] req] tr IH]; intros db; simpl;
    [reflexivity|].
  destruct (log_requests_totals env times req db) as [Ht Hl].
  destruct (log_requests elapsed env times req db) as [[r db1] lg].
  specialize (IH db1).
  destruct (run_logged elapsed tr db1) as [[rs db2] lg']. simpl in *.
  rewrite created_totals_app, Ht, IH, Hl.
  now destruct (creates (route req)).
Qed.

End ObservabilityFacts.

Example router_not_found_log :
  (log_requests_any Z.sub env0 (mkTimes 1000 1002)
     (mkIncoming "GET" "http://testserver/contatos/a/b" None
                 (answered_elsewhere 404)) [ana]).2 =
    [(INFO, request_started "GET" "http://testserver/contatos/a/b" "unknown");
     (INFO, request_completed "GET" "http://testserver/contatos/a/b" 404 2)].
Proof. reflexivity. Qed.

Example lookup_not_found_log :
  (log_requests_any Z.sub env0 (mkTimes 1000 1002)
     (mkIncoming "GET" "http://testserver/contatos/nobody" (Some "10.0.0.7")
                 (to_handler (GET_contato "nobody"))) [ana]).2 =
    [(INFO, request_started "GET" "http://testserver/contatos/nobody" "10.0.0.7");
     (INFO, searching_contact "nobody");
     (WARNING, contact_not_found "nobody");
     (INFO, request_completed "GET" "http://testserver/contatos/nobody" 404 2)].
Proof. reflexivity. Qed.

Example raised_log :
  (log_requests_any Z.sub env0 (mkTimes 1000 1002)
     (mkIncoming "GET" "http://testserver/system-metrics" None
                 raised_elsewhere) [ana]).2 =
    [(INFO, request_started "GET" "http://testserver/system-metrics" "unknown")].
Proof. reflexivity. Qed.

Lemma rejected_body_log_witness :
  (log_requests Z.sub env0 (mkTimes 1000 1003)
     (mkHttpRequest "POST" "http://testserver/contatos" None
                    (POST_contatos body_no_phone)) [ana]).2 =
    [(INFO, request_started "POST" "http://testserver/contatos" "unknown");
     (INFO, request_completed "POST" "http://testserver/contatos" 422 3)].
Proof.
  apply (rejected_body_log Z.sub env0 (mkTimes 1000 1003)
           (mkHttpRequest "POST" "http://testserver/contatos" None
                          (POST_contatos body_no_phone)) [ana]).
  vm_compute. reflexivity.
Defined.

(** ** The system-metrics endpoints *)

Lemma free_of_app c a b : free_of c (a ++ b) = free_of c a && free_of c b.
Proof.
  induction a as [|x a IH]; simpl; [reflexivity|].
  now rewrite IH, andb_assoc.
Qed.

Lemma split_on_nonempty sep s : split_on sep s <> [].
Proof.
  induction s as [|c s IH]; simpl; [discriminate|].
  destruct (Ascii.eqb c sep); [discriminate|].
  now destruct (split_on sep s).
Qed.

Lemma split_on_line sep l rest :
  free_of sep l = true ->
  split_on sep (l ++ String sep rest) = l :: split_on sep rest.
Proof.
  induction l as [|c l IH]; simpl.
  - intros _. now rewrite Ascii.eqb_refl.
  - intros H. apply andb_prop in H as [Hc Hl].
    apply negb_true_iff in Hc. rewrite Hc. now rewrite (IH Hl).
Qed.

Lemma string_app_assoc (a b c : string) : (a ++ b) ++ c = a ++ (b ++ c).
Proof.
  induction a as [|x a IH]; [reflexivity | exact (f_equal (String x) IH)].
Qed.

Lemma split_on_joined sep x xs :
  Forall (fun l => free_of sep l = true) (x :: xs) ->
  split_on sep (String.concat (String sep EmptyString) (x :: xs)
                ++ String sep EmptyString)
  = ((x :: xs) ++ [EmptyString])%list.
Proof.
  revert x. induction xs as [|y ys IH]; intros x H.
  - simpl String.concat. inversion H as [|? ? Hx _]; subst.
    now rewrite (split_on_line sep x EmptyString Hx).
  - inversion H as [|? ? Hx Hrest]; subst.
    change (String.concat (String sep EmptyString) (x :: y :: ys))
      with (x ++ String sep EmptyString
              ++ String.concat (String sep EmptyString) (y :: ys)).
    rewrite !string_app_assoc.
    etransitivity;
      [exact (split_on_line sep x
                (String.concat (String sep EmptyString) (y :: ys)
                 ++ String sep EmptyString) Hx)|].
    now rewrite (IH y Hrest).
Qed.

Lemma string_of_uint_free d : free_of newline (NilEmpty.string_of_uint d) = true.
Proof. induction d; simpl; trivial. Qed.

Lemma str_int_free n : free_of newline (str_int n) = true.
Proof.
  unfold str_int. destruct (Z.to_int n) as [d|d]; simpl.
  - destruct d; try reflexivity; apply (string_of_uint_free (_ d)).
  - destruct d; try reflexivity; apply (string_of_uint_free (_ d)).
Qed.

Section MetricsFacts.

Context {float : Type}.
Variables (truediv : Z -> Z -> float) (fmul : float -> Z -> float).
Variables (round2 : float -> float) (repr : float -> string).

(** Both metrics endpoints fail with [ZeroDivisionError] exactly when the
    host reports a disk total of zero, the division in the disk usage
    percentage being unguarded; in every case the contact store is left as
    it was, and a [GET /system-metrics] that succeeds reports the number
    of stored contacts. *)
Theorem metrics_fail_iff_disk_total_zero (rd : Readings float) db :
  ((system_metrics truediv fmul round2 rd db).1 = inr ZeroDivisionError <->
   disk_total (disk_usage rd) = 0) /\
  ((system_metrics_prometheus truediv fmul round2 repr rd db).1 = inr ZeroDivisionError <->
   disk_total (disk_usage rd) = 0) /\
  (system_metrics truediv fmul round2 rd db).2 = db /\
  (system_metrics_prometheus truediv fmul round2 repr rd db).2 = db /\
  (forall b, (system_metrics truediv fmul round2 rd db).1 = inl b -> contacts_count b = length db).
Proof.
  unfold system_metrics, system_metrics_prometheus, prometheus_metrics,
    usage_percent.
  destruct (Z.eqb_spec (disk_total (disk_usage rd)) 0) as [E|E]; simpl.
  - repeat split; try discriminate; auto.
  - repeat split; try discriminate; try contradiction.
    now intros b [= <-].
Qed.

(** The Prometheus text is made of whole lines: when the text of a float
    holds no line break, splitting the response at line breaks gives back
    the eleven metric lines and an empty remainder, so every line,
    the last included, ends with a line break; the eleventh line is
    [agenda_contacts_total] followed by the number of stored contacts in
    decimal. *)
Theorem prometheus_body_lines (rd : Readings float) db text :
  (forall x, free_of newline (repr x) = true) ->
  (system_metrics_prometheus truediv fmul round2 repr rd db).1 = inl text ->
  exists metrics,
    prometheus_metrics truediv fmul round2 repr rd db = inl metrics /\
    length metrics = 11%nat /\
    split_on newline text = (metrics ++ [EmptyString])%list /\
    metrics !! 10%nat =
      Some ("agenda_contacts_total " ++ str_int (Z.of_nat (length db))).
Proof.
  intros Hrepr. unfold system_metrics_prometheus.
  destruct (prometheus_metrics truediv fmul round2 repr rd db)
    as [metrics|e] eqn:Hm; [|discriminate].
  simpl. intros [= <-]. exists metrics.
  unfold prometheus_metrics in Hm.
  destruct (usage_percent truediv fmul round2 (disk_usage rd)) as [pct|e];
    [|discriminate].
  injection Hm as <-.
  split; [reflexivity|]. split; [reflexivity|]. split; [|reflexivity].
  apply split_on_joined.
  repeat (apply Forall_cons; split;
          [rewrite free_of_app; apply andb_true_intro; split;
           [reflexivity|] |]);
    try apply Forall_nil_2;
    try apply Hrepr; try apply str_int_free.
  destruct (cpu_count rd); [apply str_int_free | reflexivity].
Qed.


End MetricsFacts.



Lemma prometheus_body_lines_witness :
  let rd := mkReadings 0 (Some 4) (mkSvmem 8000000000 3000000000 0 5000000000)
                       (mkSdiskusage 100 25 75) t0 in
  exists text metrics,
    (system_metrics_prometheus Z.div Z.mul (fun x => x) (fun _ => "0.0")
       rd [ana; bia]).1 = inl text /\
    length metrics = 11%nat /\
    split_on newline text = (metrics ++ [EmptyString])%list /\
    metrics !! 10%nat = Some "agenda_contacts_total 2".
Proof.
  intros rd. eexists.
  destruct (prometheus_body_lines Z.div Z.mul (fun x => x) (fun _ => "0.0")
              rd [ana; bia] _ (fun _ => eq_refl) eq_refl)
    as (metrics & _ & Hlen & Hsplit & Hlast).
  exists metrics. repeat split; assumption.
Defined.
